(** * HuggingFace wrappers of jfrog-cli-artifactory: a shallow embedding

    The repository holds three Python scripts under
    [artifactory/commands/huggingface]:
    - [huggingface_download.py]: [download], a wrapper of the hub client's
      [snapshot_download];
    - [huggingface_upload.py]: [upload], a wrapper of [HfApi().upload_folder];
    - [hfUtils.py]: a driver that prints, reads [os.environ['HF_ENDPOINT']],
      calls [download] and prints the result.

    The code is parameter marshalling around an external library, so the
    embedding is a small state-and-error monad over a log of observable
    events (lines printed, environment reads, wrapper entries, library calls
    with their outcome), Python's argument binding for the two [def] lines,
    and the hub client as an arbitrary, possibly failing, history-dependent
    collaborator. *)

From stdpp Require Import gmap strings list fin_maps pretty.
From Stdlib Require Import ZArith.

Open Scope string_scope.

(** ** Python values and exceptions *)

(** The objects that travel through the wrappers: [None], booleans,
    integers, strings, and opaque library objects (an [HfApi] instance, a
    commit-info object) known only by their printed form. *)
Inductive value :=
  | VNone
  | VBool (b : bool)
  | VInt (n : Z)
  | VStr (s : string)
  | VObj (repr : string).

#[global] Instance value_eq_dec : EqDecision value.
Proof. solve_decision. Defined.

#[global] Instance value_inhabited : Inhabited value := populate VNone.


(** An exception object: its class and its argument. *)
Record exception := Exc { exc_type : string; exc_arg : string }.

#[global] Instance exception_eq_dec : EqDecision exception.
Proof. solve_decision. Defined.

Definition TypeError (msg : string) : exception := Exc "TypeError" msg.

(** A Python computation either returns or raises. *)
Inductive outcome (A : Type) :=
  | Return (a : A)
  | Raise (e : exception).
Arguments Return {A} a.
Arguments Raise {A} e.

#[global] Instance outcome_eq_dec {A} `{EqDecision A} : EqDecision (outcome A).
Proof. solve_decision. Defined.

(** ** Observable events *)

(** The two functions this repository defines. *)
Inductive wrapper := Fdownload | Fupload.

(** The three entry points of [huggingface_hub] the repository calls. *)
Inductive capability := Esnapshot_download | EHfApi | Eupload_folder.

#[global] Instance wrapper_eq_dec : EqDecision wrapper.
Proof. solve_decision. Defined.

#[global] Instance capability_eq_dec : EqDecision capability.
Proof. solve_decision. Defined.

Inductive event :=
  | Print (line : string)
      (* print(line) *)
  | EnvRead (key : string)
      (* os.environ[key] is evaluated *)
  | Enter (f : wrapper) (args : list value) (kwargs : gmap string value)
      (* wrapper f is called with these arguments *)
  | External (f : capability) (args : list value)
             (kwargs : gmap string value) (result : outcome value).
      (* the library is called and returns or raises [result] *)

#[global] Instance event_eq_dec : EqDecision event.
Proof. solve_decision. Defined.

(** The process environment ([os.environ], a str-to-str mapping) and the
    log of what has happened so far. *)
Record world := World {
  environ : gmap string string;
  trace : list event
}.

Definition log (ev : event) (w : world) : world :=
  World (environ w) (trace w ++ [ev]).

(** ** The monad of Python statements *)

Definition M (A : Type) : Type := world → outcome A * world.

#[global] Instance M_ret : MRet M := λ A a w, (Return a, w).

#[global] Instance M_bind : MBind M := λ A B f m w,
  match m w with
  | (Return a, w') => f a w'
  | (Raise e, w') => (Raise e, w')
  end.

Definition raise {A} (e : exception) : M A := λ w, (Raise e, w).

Definition emit (ev : event) : M () := λ w, (Return (), log ev w).

Definition lift {A} (r : outcome A) : M A := λ w, (r, w).



(** ** The external hub client

    [huggingface_hub] is not part of the repository.  Each entry point is an
    arbitrary function of the world at the time of the call (environment
    and history) and of the arguments it receives; each may raise. *)
Record HubClient := {
  snapshot_download : world → gmap string value → outcome value;
  HfApi : world → outcome value;
  upload_folder : world → value → gmap string value → outcome value
}.

(** A library call: the outcome is decided by the client and logged. *)
Definition external (f : capability) (args : list value)
    (kwargs : gmap string value) (behaviour : world → outcome value)
    : M value := λ w,
  let r := behaviour w in (r, log (External f args kwargs r) w).

(** ** Python's calling convention *)

(** A [def] line with plain parameters (each with an optional default) and
    possibly a trailing [**kwargs]. *)
Record signature := Signature {
  sig_name : string;
  params : list (string * option value);
  var_keyword : bool
}.

Definition param_names (sig : signature) : list string := (params sig).*1.

Definition param_defaults (sig : signature) : gmap string value :=
  list_to_map (omap (λ p, (λ d, (p.1, d)) <$> p.2) (params sig)).

(** Binding of a call's positional and keyword arguments to the
    parameters.  The result is the values of the named parameters and the
    dictionary received by [**kwargs].  A call with too many positional
    arguments, a parameter given both by position and by keyword, an
    unexpected keyword (when there is no [**kwargs]) or a missing required
    parameter raises [TypeError]. *)
Definition bind_args (sig : signature) (args : list value)
    (kw : gmap string value)
    : outcome (gmap string value * gmap string value) :=
  let names := param_names sig in
  let positional : gmap string value := list_to_map (zip names args) in
  let by_name := filter (λ kv, kv.1 ∈ names) kw in
  let extra := filter (λ kv, kv.1 ∉ names) kw in
  let named := positional ∪ by_name ∪ param_defaults sig in
  if decide (length names < length args) then
    Raise (TypeError (sig_name sig ++ "() takes too many positional arguments"))
  else if decide (positional ##ₘ by_name) then
    if decide (extra = ∅ ∨ var_keyword sig = true) then
      if decide (Forall (λ n, is_Some (named !! n)) names) then
        Return (named, extra)
      else
        Raise (TypeError (sig_name sig ++ "() missing required arguments"))
    else
      Raise (TypeError (sig_name sig ++ "() got an unexpected keyword argument"))
  else
    Raise (TypeError (sig_name sig ++ "() got multiple values for argument")).

(** The keyword dictionary of a call [f(k1=v1, ..., **star)]: a key of
    [star] that repeats an explicit keyword raises [TypeError] before [f]
    is called. *)
Definition keywords (explicit : list (string * value))
    (star : gmap string value) : M (gmap string value) :=
  if decide (Forall (λ kv, star !! kv.1 = None) explicit) then
    mret (list_to_map explicit ∪ star)
  else
    raise (TypeError "got multiple values for keyword argument").

(** ** huggingface_download.py *)

(** [def download(repo_id, repo_type, etag_timeout, revision=None, **kwargs)] *)
Definition download_sig : signature :=
  Signature "download"
    [("repo_id", None); ("repo_type", None); ("etag_timeout", None);
     ("revision", Some VNone)]
    true.

(** The body of [download], with its parameters bound. *)
Definition download_body (c : HubClient)
    (repo_id repo_type etag_timeout revision : value)
    (kwargs : gmap string value) : M value :=
  k ← keywords [("repo_id", repo_id); ("revision", revision);
                ("repo_type", repo_type); ("etag_timeout", etag_timeout)]
               kwargs;
  external Esnapshot_download [] k (λ w, snapshot_download c w k).

(** A call of [download] with positional arguments [args] and keyword
    arguments [kw]. *)
Definition download (c : HubClient) (args : list value)
    (kw : gmap string value) : M value :=
  emit (Enter Fdownload args kw);;
  b ← lift (bind_args download_sig args kw);
  download_body c (b.1 !!! "repo_id") (b.1 !!! "repo_type")
                  (b.1 !!! "etag_timeout") (b.1 !!! "revision") b.2.

(** ** huggingface_upload.py *)

(** [def upload(folder_path, repo_id, repo_type, revision=None, **kwargs)] *)
Definition upload_sig : signature :=
  Signature "upload"
    [("folder_path", None); ("repo_id", None); ("repo_type", None);
     ("revision", Some VNone)]
    true.

(** The body of [upload]: the client object is built, its [upload_folder]
    is called, what that returns is dropped, and the function falls off its
    end, which returns [None]. *)
Definition upload_body (c : HubClient)
    (folder_path repo_id repo_type revision : value)
    (kwargs : gmap string value) : M value :=
  api ← external EHfApi [] ∅ (HfApi c);
  k ← keywords [("folder_path", folder_path); ("repo_id", repo_id);
                ("revision", revision); ("repo_type", repo_type)]
               kwargs;
  external Eupload_folder [api] k (λ w, upload_folder c w api k);;
  mret VNone.

(** A call of [upload] with positional arguments [args] and keyword
    arguments [kw]. *)
Definition upload (c : HubClient) (args : list value)
    (kw : gmap string value) : M value :=
  emit (Enter Fupload args kw);;
  b ← lift (bind_args upload_sig args kw);
  upload_body c (b.1 !!! "folder_path") (b.1 !!! "repo_id")
                (b.1 !!! "repo_type") (b.1 !!! "revision") b.2.

(** ** hfUtils.py *)





(** ** Reading a log *)

(** The argument lists with which wrapper [f] was entered. *)
Definition entries (f : wrapper) (t : list event)
    : list (list value * gmap string value) :=
  omap (λ ev, match ev with
              | Enter g args kw => if decide (g = f) then Some (args, kw) else None
              | _ => None
              end) t.

(** The calls of library entry point [f]: arguments and outcome. *)
Definition calls (f : capability) (t : list event)
    : list (list value * gmap string value * outcome value) :=
  omap (λ ev, match ev with
              | External g args kw r =>
                  if decide (g = f) then Some (args, kw, r) else None
              | _ => None
              end) t.



(** The events a computation adds to the log when run in world [w]. *)
Definition new_events {A} (m : M A) (w : world) : list event :=
  drop (length (trace w)) (trace (m w).2).

(** Calling wrapper [f]. *)
Definition call (c : HubClient) (f : wrapper)
    : list value → gmap string value → M value :=
  match f with
  | Fdownload => download c
  | Fupload => upload c
  end.

(** [revision] is the fourth parameter of both wrappers: a call omits it
    when it has at most three positional arguments and no [revision]
    keyword. *)
Definition revision_omitted (args : list value) (kw : gmap string value)
    : Prop :=
  (length args ≤ 3)%nat ∧ kw !! "revision" = None.

(** The keyword dictionary [download] hands to [snapshot_download]. *)
Definition download_request (repo_id repo_type etag_timeout revision : value)
    (kwargs : gmap string value) : gmap string value :=
  list_to_map [("repo_id", repo_id); ("revision", revision);
               ("repo_type", repo_type); ("etag_timeout", etag_timeout)]
    ∪ kwargs.

(** The keyword dictionary [upload] hands to [upload_folder]. *)
Definition upload_request (folder_path repo_id repo_type revision : value)
    (kwargs : gmap string value) : gmap string value :=
  list_to_map [("folder_path", folder_path); ("repo_id", repo_id);
               ("revision", revision); ("repo_type", repo_type)]
    ∪ kwargs.


(** ** Sample clients and calls

    Concrete collaborators and argument lists on which the statements
    below are exercised. *)

(** A client that answers every request. *)
Definition client_ok : HubClient := {|
  snapshot_download := λ _ _, Return (VStr "/cache/models--bert-base-uncased");
  HfApi := λ _, Return (VObj "<HfApi>");
  upload_folder := λ _ _ _, Return (VObj "<CommitInfo>")
|}.

(** A client whose transfers fail. *)
Definition client_down : HubClient := {|
  snapshot_download := λ _ _, Raise (Exc "ConnectionError" "unreachable");
  HfApi := λ _, Return (VObj "<HfApi>");
  upload_folder := λ _ _ _, Raise (Exc "HfHubHTTPError" "401 Unauthorized")
|}.

(** [repo_id="bert-base-uncased", repo_type="model", etag_timeout=86400,
    revision="main"] *)
Definition bert_kwargs : gmap string value :=
  list_to_map [("repo_id", VStr "bert-base-uncased"); ("repo_type", VStr "model");
               ("etag_timeout", VInt 86400); ("revision", VStr "main")].

(** [folder_path="/tmp/model", repo_id="org/model", repo_type="model"] *)
Definition model_kwargs : gmap string value :=
  list_to_map [("folder_path", VStr "/tmp/model"); ("repo_id", VStr "org/model");
               ("repo_type", VStr "model")].

(** The same with the default of [revision] filled in. *)
Definition model_named : gmap string value :=
  <["revision" := VNone]> model_kwargs.

(** An environment with the endpoint configured. *)
Definition env_endpoint : gmap string string :=
  {[ "HF_ENDPOINT" := "https://host/artifactory/api/huggingfaceml/hf" ]}.

(** The [def] line of wrapper [f]. *)
Definition signature_of (f : wrapper) : signature :=
  match f with
  | Fdownload => download_sig
  | Fupload => upload_sig
  end.

(** The library entry point wrapper [f] forwards to. *)
Definition capability_of (f : wrapper) : capability :=
  match f with
  | Fdownload => Esnapshot_download
  | Fupload => Eupload_folder
  end.

(** A call is well formed for a [def] line when it has no more positional
    arguments than parameters, gives no positionally bound parameter again
    by keyword, and gives every remaining parameter that has no default by
    keyword. *)
Definition well_formed_call (sig : signature) (args : list value)
    (kw : gmap string value) : Prop :=
  (length args ≤ length (params sig))%nat ∧
  Forall (λ k, kw !! k = None) (take (length args) (param_names sig)) ∧
  Forall (λ p, is_Some p.2 ∨ is_Some (kw !! p.1))
         (drop (length args) (params sig)).

#[global] Instance well_formed_call_dec sig args kw :
  Decision (well_formed_call sig args kw).
Proof. unfold well_formed_call. apply _. Defined.

(** What a call gives for the parameter at position [i], named [k], with
    default [d]: the positional argument, else the keyword, else the
    default. *)
Definition supplied (args : list value) (kw : gmap string value)
    (i : nat) (k : string) (d : option value) : option value :=
  match args !! i with
  | Some v => Some v
  | None => match kw !! k with
            | Some v => Some v
            | None => d
            end
  end.

(** The keyword dictionary wrapper [f] hands to its capability, from its
    bound parameters. *)
Definition request (f : wrapper) (named kwargs : gmap string value)
    : gmap string value :=
  match f with
  | Fdownload =>
      download_request (named !!! "repo_id") (named !!! "repo_type")
        (named !!! "etag_timeout") (named !!! "revision") kwargs
  | Fupload =>
      upload_request (named !!! "folder_path") (named !!! "repo_id")
        (named !!! "repo_type") (named !!! "revision") kwargs
  end.

(** A client whose constructor fails. *)
Definition client_unconfigured : HubClient := {|
  snapshot_download := λ _ _, Return (VStr "/cache/models--bert-base-uncased");
  HfApi := λ _, Raise (Exc "ValueError" "bad endpoint");
  upload_folder := λ _ _ _, Return (VObj "<CommitInfo>")
|}.

(** * Properties *)

(** ** Argument binding *)

(** The default of a parameter that has one. *)
Lemma param_defaults_lookup (sig : signature) (k : string) (d : value) :
  NoDup (param_names sig) →
  (k, Some d) ∈ params sig →
  param_defaults sig !! k = Some d.
Proof.
  unfold param_defaults, param_names.
  induction (params sig) as [|[k0 o0] ps IH]; intros Hnd Hin.
  - by apply elem_of_nil in Hin.
  - rewrite fmap_cons in Hnd. apply NoDup_cons in Hnd as [Hfresh Hnd].
    apply elem_of_cons in Hin as [[= <- <-] | Hin].
    + simpl. apply lookup_insert_eq.
    + assert (k0 ≠ k).
      { intros ->. apply Hfresh. apply list_elem_of_fmap.
        by exists (k, Some d). }
      destruct o0 as [d0|]; simpl.
      * rewrite lookup_insert_ne by done. by apply IH.
      * by apply IH.
Qed.

Section binding.
Variable sig : signature.
Variables (args : list value) (kw : gmap string value).
Variables (named kwargs : gmap string value).
Hypothesis Hbind : bind_args sig args kw = Return (named, kwargs).

(** What a successful binding says about its parts. *)
Lemma bind_args_inv :
  (length args ≤ length (param_names sig))%nat ∧
  named = list_to_map (zip (param_names sig) args)
            ∪ filter (λ kv, kv.1 ∈ param_names sig) kw
            ∪ param_defaults sig ∧
  kwargs = filter (λ kv, kv.1 ∉ param_names sig) kw ∧
  Forall (λ n, is_Some (named !! n)) (param_names sig).
Proof using Hbind.
  revert Hbind. unfold bind_args.
  repeat case_decide; try discriminate.
  intros [= <- <-]. repeat split; [lia | done].
Qed.

(** The positional arguments and the keywords that name a parameter do
    not overlap. *)
Lemma bind_args_disjoint :
  (list_to_map (zip (param_names sig) args) : gmap string value)
    ##ₘ filter (λ kv, kv.1 ∈ param_names sig) kw.
Proof using Hbind.
  revert Hbind. unfold bind_args.
  repeat case_decide; try discriminate. done.
Qed.

(** A parameter given by position is bound to that argument. *)
Lemma bind_args_positional (i : nat) (k : string) (v : value) :
  NoDup (param_names sig) →
  param_names sig !! i = Some k →
  args !! i = Some v →
  named !! k = Some v.
Proof using Hbind.
  intros Hnd Hk Hv. destruct bind_args_inv as (_ & -> & _ & _).
  apply lookup_union_Some_l, lookup_union_Some_l.
  apply elem_of_list_to_map_1'.
  - intros y Hy. apply list_elem_of_lookup in Hy as [j Hj].
    apply lookup_zip_with_Some in Hj as (k' & y' & [= <- <-] & Hn & Ha).
    pose proof (NoDup_lookup _ _ _ _ Hnd Hn Hk) as ->. congruence.
  - apply list_elem_of_lookup. exists i.
    apply lookup_zip_with_Some. eauto.
Qed.

(** A parameter given by keyword is bound to that value. *)
Lemma bind_args_keyword (k : string) (v : value) :
  k ∈ param_names sig →
  kw !! k = Some v →
  named !! k = Some v.
Proof using Hbind.
  intros Hk Hv. pose proof bind_args_disjoint as Hdisj.
  destruct bind_args_inv as (_ & -> & _ & _).
  assert (Hby : filter (λ kv : string * value, kv.1 ∈ param_names sig) kw !! k
                = Some v) by (by apply map_lookup_filter_Some).
  apply lookup_union_Some_l. rewrite lookup_union_r; [done |].
  by eapply map_disjoint_Some_r.
Qed.

(** [**kwargs] receives the keywords that name no parameter, as given. *)
Lemma bind_args_kwargs_other (k : string) :
  k ∉ param_names sig → kwargs !! k = kw !! k.
Proof using Hbind.
  intros Hk. destruct bind_args_inv as (_ & _ & -> & _).
  destruct (kw !! k) as [v|] eqn:E.
  - apply map_lookup_filter_Some. done.
  - apply map_lookup_filter_None. left. done.
Qed.

(** [**kwargs] holds no parameter name. *)
Lemma bind_args_kwargs_param (k : string) :
  k ∈ param_names sig → kwargs !! k = None.
Proof using Hbind.
  intros Hk. destruct bind_args_inv as (_ & _ & -> & _).
  apply map_lookup_filter_None. right. intros v _ Hn. by apply Hn.
Qed.

(** Every parameter is bound. *)
Lemma bind_args_named (k : string) :
  k ∈ param_names sig → named !! k = Some (named !!! k).
Proof using Hbind.
  intros Hk. destruct bind_args_inv as (_ & _ & _ & Hall).
  rewrite Forall_forall in Hall. destruct (Hall k Hk) as [v Hv].
  by rewrite (lookup_total_correct _ _ _ Hv).
Qed.

(** A parameter given neither by position nor by keyword takes its
    default. *)
Lemma bind_args_default (i : nat) (k : string) (d : value) :
  NoDup (param_names sig) →
  params sig !! i = Some (k, Some d) →
  (length args ≤ i)%nat →
  kw !! k = None →
  named !! k = Some d.
Proof using Hbind.
  intros Hnd Hi Hlen Hkw. destruct bind_args_inv as (_ & -> & _ & _).
  assert (Hpos : (list_to_map (zip (param_names sig) args)
                    : gmap string value) !! k = None).
  { apply not_elem_of_list_to_map_1. intros Hin.
    apply list_elem_of_fmap in Hin as [[k' v] [Hk' Hin]]. simpl in Hk'. subst k'.
    apply list_elem_of_lookup in Hin as [j Hj].
    apply lookup_zip_with_Some in Hj as (k' & v' & [= <- <-] & Hn & Ha).
    assert (Hni : param_names sig !! i = Some k).
    { unfold param_names. by rewrite list_lookup_fmap, Hi. }
    pose proof (NoDup_lookup _ _ _ _ Hnd Hn Hni) as ->.
    apply lookup_lt_Some in Ha. lia. }
  assert (Hby : filter (λ kv : string * value, kv.1 ∈ param_names sig) kw !! k
                = None).
  { apply map_lookup_filter_None. by left. }
  rewrite lookup_union_r; [| by apply lookup_union_None].
  apply param_defaults_lookup; [done |].
  apply list_elem_of_lookup. eauto.
Qed.
End binding.

(** ** Running the wrappers *)

(** Unfolding one statement of a block. *)
Lemma run_bind {A B} (m : M A) (f : A → M B) (w : world) :
  (m ≫= f) w = match m w with
               | (Return a, w') => f a w'
               | (Raise e, w') => (Raise e, w')
               end.
Proof. reflexivity. Qed.

(** The keyword dictionary is the union when [star] repeats no explicit
    keyword. *)
Lemma keywords_disjoint (explicit : list (string * value))
    (star : gmap string value) (w : world) :
  Forall (λ kv, star !! kv.1 = None) explicit →
  keywords explicit star w = (Return (list_to_map explicit ∪ star), w).
Proof. intros H. unfold keywords. by rewrite decide_True. Qed.

Lemma download_names :
  param_names download_sig = ["repo_id"; "repo_type"; "etag_timeout"; "revision"].
Proof. reflexivity. Qed.

Lemma upload_names :
  param_names upload_sig = ["folder_path"; "repo_id"; "repo_type"; "revision"].
Proof. reflexivity. Qed.

(** A run of [download] whose arguments bind: the wrapper is entered, the
    library is called once with [download_request], and what the library
    answers, value or exception, is the wrapper's outcome. *)
Lemma download_run (c : HubClient) (args : list value)
    (kw named kwargs : gmap string value) (w : world) :
  bind_args download_sig args kw = Return (named, kwargs) →
  let k := download_request (named !!! "repo_id") (named !!! "repo_type")
             (named !!! "etag_timeout") (named !!! "revision") kwargs in
  let w1 := log (Enter Fdownload args kw) w in
  let r := snapshot_download c w1 k in
  download c args kw w = (r, log (External Esnapshot_download [] k r) w1).
Proof.
  intros Hbind. unfold download. rewrite run_bind. cbn [emit].
  rewrite run_bind. unfold lift at 1. rewrite Hbind. cbn [fst snd].
  unfold download_body. rewrite run_bind, keywords_disjoint.
  - reflexivity.
  - repeat constructor; cbn [fst];
      apply (bind_args_kwargs_param _ _ _ _ _ Hbind);
      rewrite download_names; set_solver.
Qed.

(** A run of [download] whose arguments do not bind raises the binding's
    [TypeError] without reaching the library. *)
Lemma download_run_unbound (c : HubClient) (args : list value)
    (kw : gmap string value) (e : exception) (w : world) :
  bind_args download_sig args kw = Raise e →
  download c args kw w = (Raise e, log (Enter Fdownload args kw) w).
Proof.
  intros Hbind. unfold download. rewrite run_bind. cbn [emit].
  rewrite run_bind. unfold lift at 1. by rewrite Hbind.
Qed.

(** A run of [upload] whose arguments bind: the wrapper is entered and the
    client object is built; if that raises, so does the wrapper; otherwise
    [upload_folder] is called once on the object with [upload_request],
    and the wrapper returns [None] or raises what the call raised. *)
Lemma upload_run (c : HubClient) (args : list value)
    (kw named kwargs : gmap string value) (w : world) :
  bind_args upload_sig args kw = Return (named, kwargs) →
  let k := upload_request (named !!! "folder_path") (named !!! "repo_id")
             (named !!! "repo_type") (named !!! "revision") kwargs in
  let w1 := log (Enter Fupload args kw) w in
  let w2 := log (External EHfApi [] ∅ (HfApi c w1)) w1 in
  upload c args kw w =
    match HfApi c w1 with
    | Raise e => (Raise e, w2)
    | Return api =>
        let r := upload_folder c w2 api k in
        (match r with Return _ => Return VNone | Raise e => Raise e end,
         log (External Eupload_folder [api] k r) w2)
    end.
Proof.
  intros Hbind. unfold upload. rewrite run_bind. cbn [emit].
  rewrite run_bind. unfold lift at 1. rewrite Hbind. cbn [fst snd].
  unfold upload_body. rewrite run_bind. unfold external at 1.
  cbn zeta. destruct (HfApi c _) as [api|e] eqn:Hapi; [|done].
  rewrite run_bind, keywords_disjoint.
  - rewrite run_bind. unfold external. cbn zeta.
    by destruct (upload_folder c _ api _).
  - repeat constructor; cbn [fst];
      apply (bind_args_kwargs_param _ _ _ _ _ Hbind);
      rewrite upload_names; set_solver.
Qed.

Lemma upload_run_unbound (c : HubClient) (args : list value)
    (kw : gmap string value) (e : exception) (w : world) :
  bind_args upload_sig args kw = Raise e →
  upload c args kw w = (Raise e, log (Enter Fupload args kw) w).
Proof.
  intros Hbind. unfold upload. rewrite run_bind. cbn [emit].
  rewrite run_bind. unfold lift at 1. by rewrite Hbind.
Qed.

(** ** What the requests hold *)

Lemma download_request_params (repo_id repo_type etag_timeout revision : value)
    (kwargs : gmap string value) :
  let k := download_request repo_id repo_type etag_timeout revision kwargs in
  k !! "repo_id" = Some repo_id ∧ k !! "repo_type" = Some repo_type ∧
  k !! "etag_timeout" = Some etag_timeout ∧ k !! "revision" = Some revision.
Proof.
  cbn zeta. unfold download_request.
  repeat split; apply lookup_union_Some_l; reflexivity.
Qed.

Lemma upload_request_params (folder_path repo_id repo_type revision : value)
    (kwargs : gmap string value) :
  let k := upload_request folder_path repo_id repo_type revision kwargs in
  k !! "folder_path" = Some folder_path ∧ k !! "repo_id" = Some repo_id ∧
  k !! "repo_type" = Some repo_type ∧ k !! "revision" = Some revision.
Proof.
  cbn zeta. unfold upload_request.
  repeat split; apply lookup_union_Some_l; reflexivity.
Qed.

(** A key that names no parameter is looked up in [kwargs]. *)
Lemma download_request_other (repo_id repo_type etag_timeout revision : value)
    (kwargs : gmap string value) (name : string) :
  name ∉ param_names download_sig →
  download_request repo_id repo_type etag_timeout revision kwargs !! name
  = kwargs !! name.
Proof.
  rewrite download_names. intros Hn. unfold download_request.
  apply lookup_union_r. apply not_elem_of_list_to_map_1.
  cbn. rewrite !not_elem_of_cons in *. tauto.
Qed.

Lemma upload_request_other (folder_path repo_id repo_type revision : value)
    (kwargs : gmap string value) (name : string) :
  name ∉ param_names upload_sig →
  upload_request folder_path repo_id repo_type revision kwargs !! name
  = kwargs !! name.
Proof.
  rewrite upload_names. intros Hn. unfold upload_request.
  apply lookup_union_r. apply not_elem_of_list_to_map_1.
  cbn. rewrite !not_elem_of_cons in *. tauto.
Qed.

(** ** Events of a run *)

Lemma new_events_log1 {A} (m : M A) (w : world) (r : outcome A) (e1 : event) :
  m w = (r, log e1 w) → new_events m w = [e1].
Proof.
  intros H. unfold new_events. rewrite H. cbn.
  by rewrite drop_app_length.
Qed.

Lemma new_events_log2 {A} (m : M A) (w : world) (r : outcome A)
    (e1 e2 : event) :
  m w = (r, log e2 (log e1 w)) → new_events m w = [e1; e2].
Proof.
  intros H. unfold new_events. rewrite H. cbn.
  by rewrite <- app_assoc, drop_app_length.
Qed.

Lemma new_events_log3 {A} (m : M A) (w : world) (r : outcome A)
    (e1 e2 e3 : event) :
  m w = (r, log e3 (log e2 (log e1 w))) → new_events m w = [e1; e2; e3].
Proof.
  intros H. unfold new_events. rewrite H. cbn.
  by rewrite <- !app_assoc, drop_app_length.
Qed.

(** The first example of [download]'s docstring,
    [download("bert-base-uncased", revision="main")], does not bind:
    [repo_type] and [etag_timeout] have no default in the [def] line. *)
Example docstring_example_does_not_bind :
  bind_args download_sig [VStr "bert-base-uncased"] {[ "revision" := VStr "main" ]}
  = Raise (TypeError "download() missing required arguments").
Proof. vm_compute; reflexivity. Qed.

(** * The claims *)

(** ** The wrappers forward their parameters *)

(** C1. Whenever a call of [download] binds its parameters [repo_id],
    [repo_type], [etag_timeout] and [revision] to four values, the wrapper
    calls [snapshot_download] exactly once (the run consists of the entry
    into the wrapper and that one library call) and the call receives
    exactly those four values under the same four names. *)
Theorem download_forwards_once (c : HubClient) (args : list value)
    (kw named kwargs : gmap string value) (w : world)
    (repo_id repo_type etag_timeout revision : value) :
  bind_args download_sig args kw = Return (named, kwargs) →
  named !! "repo_id" = Some repo_id →
  named !! "repo_type" = Some repo_type →
  named !! "etag_timeout" = Some etag_timeout →
  named !! "revision" = Some revision →
  ∃ k r,
    new_events (download c args kw) w
      = [Enter Fdownload args kw; External Esnapshot_download [] k r] ∧
    k !! "repo_id" = Some repo_id ∧ k !! "repo_type" = Some repo_type ∧
    k !! "etag_timeout" = Some etag_timeout ∧ k !! "revision" = Some revision.
Proof.
  intros Hbind H1 H2 H3 H4.
  pose proof (download_run c args kw named kwargs w Hbind) as Hrun.
  cbn zeta in Hrun. eexists _, _. split.
  - eapply new_events_log2. exact Hrun.
  - rewrite (lookup_total_correct _ _ _ H1), (lookup_total_correct _ _ _ H2),
      (lookup_total_correct _ _ _ H3), (lookup_total_correct _ _ _ H4).
    apply download_request_params.
Qed.

Lemma download_forwards_once_witness :
  ∃ k r,
    new_events (download client_ok [] bert_kwargs) (World ∅ [])
      = [Enter Fdownload [] bert_kwargs; External Esnapshot_download [] k r] ∧
    k !! "repo_id" = Some (VStr "bert-base-uncased") ∧
    k !! "repo_type" = Some (VStr "model") ∧
    k !! "etag_timeout" = Some (VInt 86400) ∧
    k !! "revision" = Some (VStr "main").
Proof.
  apply (download_forwards_once client_ok [] bert_kwargs bert_kwargs ∅);
    vm_compute; reflexivity.
Defined.



(** The parameter names of either wrapper do not repeat. *)
Lemma download_names_NoDup : NoDup (param_names download_sig).
Proof. rewrite download_names. compute_done. Qed.

Lemma upload_names_NoDup : NoDup (param_names upload_sig).
Proof. rewrite upload_names. compute_done. Qed.

(** A call that omits [revision] binds it to [None]. *)
Lemma download_revision_default (args : list value)
    (kw named kwargs : gmap string value) :
  bind_args download_sig args kw = Return (named, kwargs) →
  revision_omitted args kw →
  named !! "revision" = Some VNone.
Proof.
  intros Hbind [Hlen Hkw].
  eapply (bind_args_default _ _ _ _ _ Hbind 3);
    [apply download_names_NoDup | reflexivity | done | done].
Qed.

Lemma upload_revision_default (args : list value)
    (kw named kwargs : gmap string value) :
  bind_args upload_sig args kw = Return (named, kwargs) →
  revision_omitted args kw →
  named !! "revision" = Some VNone.
Proof.
  intros Hbind [Hlen Hkw].
  eapply (bind_args_default _ _ _ _ _ Hbind 3);
    [apply upload_names_NoDup | reflexivity | done | done].
Qed.

(** C3. A call of [download] or of [upload] that omits [revision] (and
    whose other arguments bind) makes the one call of the underlying
    capability with [revision=None]; in particular not with the empty
    string.  For [upload] the call is reached when [HfApi()] returns. *)
Theorem omitted_revision_is_None (c : HubClient) (w : world)
    (dargs : list value) (dkw dnamed dkwargs : gmap string value)
    (uargs : list value) (ukw unamed ukwargs : gmap string value)
    (api : value) :
  revision_omitted dargs dkw →
  bind_args download_sig dargs dkw = Return (dnamed, dkwargs) →
  revision_omitted uargs ukw →
  bind_args upload_sig uargs ukw = Return (unamed, ukwargs) →
  HfApi c (log (Enter Fupload uargs ukw) w) = Return api →
  (∃ k r,
     calls Esnapshot_download (new_events (download c dargs dkw) w)
       = [([], k, r)] ∧
     k !! "revision" = Some VNone ∧ k !! "revision" ≠ Some (VStr "")) ∧
  (∃ k r,
     calls Eupload_folder (new_events (upload c uargs ukw) w)
       = [([api], k, r)] ∧
     k !! "revision" = Some VNone ∧ k !! "revision" ≠ Some (VStr "")).
Proof.
  intros Hdo Hdb Huo Hub Hapi. split.
  - pose proof (download_revision_default _ _ _ _ Hdb Hdo) as Hrev.
    pose proof (download_run c dargs dkw dnamed dkwargs w Hdb) as Hrun.
    cbn zeta in Hrun. apply new_events_log2 in Hrun.
    eexists _, _. rewrite Hrun. split; [reflexivity |].
    rewrite (lookup_total_correct _ _ _ Hrev).
    assert (Hk := download_request_params (dnamed !!! "repo_id")
                    (dnamed !!! "repo_type") (dnamed !!! "etag_timeout")
                    VNone dkwargs).
    cbn zeta in Hk. destruct Hk as (_ & _ & _ & ->). done.
  - pose proof (upload_revision_default _ _ _ _ Hub Huo) as Hrev.
    pose proof (upload_run c uargs ukw unamed ukwargs w Hub) as Hrun.
    cbn zeta in Hrun. rewrite Hapi in Hrun. apply new_events_log3 in Hrun.
    eexists _, _. rewrite Hrun. split; [reflexivity |].
    rewrite (lookup_total_correct _ _ _ Hrev).
    assert (Hk := upload_request_params (unamed !!! "folder_path")
                    (unamed !!! "repo_id") (unamed !!! "repo_type")
                    VNone ukwargs).
    cbn zeta in Hk. destruct Hk as (_ & _ & _ & ->). done.
Qed.

Lemma omitted_revision_is_None_witness :
  (∃ k r,
     calls Esnapshot_download
       (new_events (download client_ok [VStr "org/model"; VStr "model"; VInt 10] ∅)
                   (World ∅ []))
       = [([], k, r)] ∧
     k !! "revision" = Some VNone ∧ k !! "revision" ≠ Some (VStr "")) ∧
  (∃ k r,
     calls Eupload_folder
       (new_events (upload client_ok [] model_kwargs) (World ∅ []))
       = [([VObj "<HfApi>"], k, r)] ∧
     k !! "revision" = Some VNone ∧ k !! "revision" ≠ Some (VStr "")).
Proof.
  apply (omitted_revision_is_None client_ok (World ∅ [])
           [VStr "org/model"; VStr "model"; VInt 10] ∅
           (list_to_map [("repo_id", VStr "org/model"); ("repo_type", VStr "model");
                         ("etag_timeout", VInt 10); ("revision", VNone)]) ∅
           [] model_kwargs model_named ∅ (VObj "<HfApi>")).
  - split; [simpl; lia | reflexivity].
  - vm_compute; reflexivity.
  - split; [simpl; lia | reflexivity].
  - vm_compute; reflexivity.
  - reflexivity.
Defined.

(** C4. Every keyword argument of a call of [download] or [upload] that
    names no parameter of the wrapper reaches the one call of the
    underlying capability under the same name with the same value, and
    under such names the capability receives nothing else: outside the
    four parameter names, the dictionary it receives is the caller's.  For
    [upload] the call is reached when [HfApi()] returns. *)
Theorem kwargs_pass_through (c : HubClient) (w : world)
    (dargs : list value) (dkw dnamed dkwargs : gmap string value)
    (uargs : list value) (ukw unamed ukwargs : gmap string value)
    (api : value) :
  bind_args download_sig dargs dkw = Return (dnamed, dkwargs) →
  bind_args upload_sig uargs ukw = Return (unamed, ukwargs) →
  HfApi c (log (Enter Fupload uargs ukw) w) = Return api →
  (∃ k r,
     calls Esnapshot_download (new_events (download c dargs dkw) w)
       = [([], k, r)] ∧
     ∀ name, name ∉ param_names download_sig → k !! name = dkw !! name) ∧
  (∃ k r,
     calls Eupload_folder (new_events (upload c uargs ukw) w)
       = [([api], k, r)] ∧
     ∀ name, name ∉ param_names upload_sig → k !! name = ukw !! name).
Proof.
  intros Hdb Hub Hapi. split.
  - pose proof (download_run c dargs dkw dnamed dkwargs w Hdb) as Hrun.
    cbn zeta in Hrun. apply new_events_log2 in Hrun.
    eexists _, _. rewrite Hrun. split; [reflexivity |].
    intros name Hname. rewrite download_request_other by done.
    by apply (bind_args_kwargs_other _ _ _ _ _ Hdb).
  - pose proof (upload_run c uargs ukw unamed ukwargs w Hub) as Hrun.
    cbn zeta in Hrun. rewrite Hapi in Hrun. apply new_events_log3 in Hrun.
    eexists _, _. rewrite Hrun. split; [reflexivity |].
    intros name Hname. rewrite upload_request_other by done.
    by apply (bind_args_kwargs_other _ _ _ _ _ Hub).
Qed.

Lemma kwargs_pass_through_witness :
  (∃ k r,
     calls Esnapshot_download
       (new_events
          (download client_ok []
             (<["local_dir" := VStr "/data"]>
                (<["force_download" := VBool true]> bert_kwargs)))
          (World ∅ []))
       = [([], k, r)] ∧
     ∀ name, name ∉ param_names download_sig →
       k !! name = (<["local_dir" := VStr "/data"]>
                      (<["force_download" := VBool true]> bert_kwargs)) !! name) ∧
  (∃ k r,
     calls Eupload_folder
       (new_events
          (upload client_ok [VStr "/tmp/model"; VStr "org/model"; VStr "model"]
             {[ "commit_message" := VStr "first" ]})
          (World ∅ []))
       = [([VObj "<HfApi>"], k, r)] ∧
     ∀ name, name ∉ param_names upload_sig →
       k !! name = ({[ "commit_message" := VStr "first" ]}
                      : gmap string value) !! name).
Proof.
  apply (kwargs_pass_through client_ok (World ∅ []) []
           (<["local_dir" := VStr "/data"]>
              (<["force_download" := VBool true]> bert_kwargs))
           bert_kwargs
           (<["local_dir" := VStr "/data"]>
              {[ "force_download" := VBool true ]})
           [VStr "/tmp/model"; VStr "org/model"; VStr "model"]
           {[ "commit_message" := VStr "first" ]}
           model_named {[ "commit_message" := VStr "first" ]}
           (VObj "<HfApi>")).
  - vm_compute; reflexivity.
  - vm_compute; reflexivity.
  - reflexivity.
Defined.

(** ** Outcomes *)

(** A run of a wrapper, whatever its arguments: the events it adds and
    its outcome, by cases on the binding and on the client's answers. *)
Lemma download_cases (c : HubClient) (args : list value)
    (kw : gmap string value) (w : world) :
  (∃ e, new_events (download c args kw) w = [Enter Fdownload args kw] ∧
        (download c args kw w).1 = Raise e ∧
        bind_args download_sig args kw = Raise e) ∨
  (∃ k r, new_events (download c args kw) w
            = [Enter Fdownload args kw; External Esnapshot_download [] k r] ∧
          (download c args kw w).1 = r).
Proof.
  destruct (bind_args download_sig args kw) as [[named kwargs]|e] eqn:Hbind.
  - right. pose proof (download_run c args kw named kwargs w Hbind) as Hrun.
    cbn zeta in Hrun. eexists _, _. split.
    + eapply new_events_log2. exact Hrun.
    + by rewrite Hrun.
  - left. pose proof (download_run_unbound c args kw e w Hbind) as Hrun.
    exists e. split; [|split; [by rewrite Hrun | done]].
    eapply new_events_log1. exact Hrun.
Qed.

Lemma upload_cases (c : HubClient) (args : list value)
    (kw : gmap string value) (w : world) :
  (∃ e, new_events (upload c args kw) w = [Enter Fupload args kw] ∧
        (upload c args kw w).1 = Raise e ∧
        bind_args upload_sig args kw = Raise e) ∨
  (∃ e, new_events (upload c args kw) w
          = [Enter Fupload args kw; External EHfApi [] ∅ (Raise e)] ∧
        (upload c args kw w).1 = Raise e) ∨
  (∃ api k e, new_events (upload c args kw) w
                = [Enter Fupload args kw; External EHfApi [] ∅ (Return api);
                   External Eupload_folder [api] k (Raise e)] ∧
              (upload c args kw w).1 = Raise e) ∨
  (∃ api k v, new_events (upload c args kw) w
                = [Enter Fupload args kw; External EHfApi [] ∅ (Return api);
                   External Eupload_folder [api] k (Return v)] ∧
              (upload c args kw w).1 = Return VNone).
Proof.
  destruct (bind_args upload_sig args kw) as [[named kwargs]|e] eqn:Hbind.
  - right. pose proof (upload_run c args kw named kwargs w Hbind) as Hrun.
    cbn zeta in Hrun.
    destruct (HfApi c _) as [api|e] eqn:Hapi.
    + right.
      destruct (upload_folder c _ api _) as [v|e] eqn:Hup.
      * right. exists api. eexists _, v. split; [|by rewrite Hrun].
        eapply new_events_log3. exact Hrun.
      * left. exists api. eexists _, e. split; [|by rewrite Hrun].
        eapply new_events_log3. exact Hrun.
    + left. exists e. split; [|by rewrite Hrun].
      eapply new_events_log2. exact Hrun.
  - left. pose proof (upload_run_unbound c args kw e w Hbind) as Hrun.
    exists e. split; [|split; [by rewrite Hrun | done]].
    eapply new_events_log1. exact Hrun.
Qed.

(** C5. If the client raises [e] during a call of either wrapper (a
    library call of the run ends in [Raise e]), the wrapper raises that
    same [e]; the failing call is the last thing the run does, so nothing
    is retried, and no other library call of the run failed. *)
Theorem client_exception_propagates (c : HubClient) (f : wrapper)
    (args : list value) (kw : gmap string value) (w : world)
    (g : capability) (gargs : list value) (k : gmap string value)
    (e : exception) :
  External g gargs k (Raise e) ∈ new_events (call c f args kw) w →
  (call c f args kw w).1 = Raise e ∧
  ∃ before,
    new_events (call c f args kw) w
      = (before ++ [External g gargs k (Raise e)])%list ∧
    ∀ g' gargs' k' e', External g' gargs' k' (Raise e') ∉ before.
Proof.
  destruct f; cbn [call].
  - destruct (download_cases c args kw w)
      as [(e0 & -> & Hres & _) | (k0 & r & -> & Hres)]; intros Hin.
    + apply list_elem_of_singleton in Hin. discriminate.
    + apply elem_of_cons in Hin as [Hin | Hin]; [discriminate |].
      apply list_elem_of_singleton in Hin. injection Hin as -> -> -> <-.
      split; [done |]. exists [Enter Fdownload args kw]. split; [done |].
      intros g' a' k' e' H. apply list_elem_of_singleton in H. discriminate.
  - destruct (upload_cases c args kw w)
      as [(e0 & -> & Hres & _) | [(e0 & -> & Hres) |
          [(api & k0 & e0 & -> & Hres) | (api & k0 & v & -> & Hres)]]];
      intros Hin.
    + apply list_elem_of_singleton in Hin. discriminate.
    + apply elem_of_cons in Hin as [Hin | Hin]; [discriminate |].
      apply list_elem_of_singleton in Hin. injection Hin as -> -> -> <-.
      split; [done |]. exists [Enter Fupload args kw]. split; [done |].
      intros g' a' k' e' H. apply list_elem_of_singleton in H. discriminate.
    + apply elem_of_cons in Hin as [Hin | Hin]; [discriminate |].
      apply elem_of_cons in Hin as [Hin | Hin]; [discriminate |].
      apply list_elem_of_singleton in Hin. injection Hin as -> -> -> <-.
      split; [done |].
      exists [Enter Fupload args kw; External EHfApi [] ∅ (Return api)].
      split; [done |].
      intros g' a' k' e' H.
      apply elem_of_cons in H as [H | H]; [discriminate |].
      apply list_elem_of_singleton in H. discriminate.
    + apply elem_of_cons in Hin as [Hin | Hin]; [discriminate |].
      apply elem_of_cons in Hin as [Hin | Hin]; [discriminate |].
      apply list_elem_of_singleton in Hin. discriminate.
Qed.

Lemma client_exception_propagates_witness :
  (call client_down Fupload [] model_kwargs (World ∅ [])).1
    = Raise (Exc "HfHubHTTPError" "401 Unauthorized") ∧
  ∃ before,
    new_events (call client_down Fupload [] model_kwargs) (World ∅ [])
      = (before ++ [External Eupload_folder [VObj "<HfApi>"] model_named
                      (Raise (Exc "HfHubHTTPError" "401 Unauthorized"))])%list ∧
    ∀ g' gargs' k' e', External g' gargs' k' (Raise e') ∉ before.
Proof.
  apply (client_exception_propagates client_down Fupload [] model_kwargs
           (World ∅ []) Eupload_folder [VObj "<HfApi>"] model_named
           (Exc "HfHubHTTPError" "401 Unauthorized")).
  apply (bool_decide_unpack _). vm_compute. exact I.
Defined.



(** The scenario of C6, evaluated: the path the client reports comes back
    unchanged. *)
Example download_bert_path :
  (download client_ok [] bert_kwargs (World env_endpoint [])).1
  = Return (VStr "/cache/models--bert-base-uncased").
Proof. reflexivity. Qed.

(** C7. A call of [upload] that returns, returns [None]: [upload_folder]
    was called once and answered with some object, and that object is not
    what the wrapper hands back. *)
Theorem upload_returns_None (c : HubClient) (args : list value)
    (kw : gmap string value) (w : world) (v : value) :
  (upload c args kw w).1 = Return v →
  v = VNone ∧
  ∃ api k conf,
    calls Eupload_folder (new_events (upload c args kw) w)
      = [([api], k, Return conf)].
Proof.
  intros Hret.
  destruct (upload_cases c args kw w)
    as [(e0 & _ & Hres & _) | [(e0 & _ & Hres) |
        [(api & k0 & e0 & _ & Hres) | (api & k0 & conf & Hev & Hres)]]];
    rewrite Hres in Hret; try discriminate.
  injection Hret as <-. split; [done |].
  exists api, k0, conf. rewrite Hev. reflexivity.
Qed.

Lemma upload_returns_None_witness :
  VNone = VNone ∧
  ∃ api k conf,
    calls Eupload_folder
      (new_events (upload client_ok [] model_kwargs) (World ∅ []))
      = [([api], k, Return conf)].
Proof.
  apply (upload_returns_None client_ok [] model_kwargs (World ∅ []) VNone).
  reflexivity.
Defined.

(** The client's confirmation object in that run, and the wrapper's
    result. *)
Example upload_drops_commit_info :
  calls Eupload_folder
    (new_events (upload client_ok [] model_kwargs) (World ∅ []))
    = [([VObj "<HfApi>"], model_named, Return (VObj "<CommitInfo>"))] ∧
  (upload client_ok [] model_kwargs (World ∅ [])).1 = Return VNone.
Proof. split; vm_compute; reflexivity. Qed.

(** ** The driver script *)












(** * Further properties of the wrappers and the driver *)

(** ** Calls that do not bind *)

(** Every failure of the binding is a [TypeError]. *)
Lemma bind_args_raises_TypeError (sig : signature) (args : list value)
    (kw : gmap string value) (e : exception) :
  bind_args sig args kw = Raise e → ∃ msg, e = TypeError msg.
Proof.
  unfold bind_args. repeat case_decide; try discriminate;
    intros [= <-]; eauto.
Qed.

(** A parameter beyond the positional arguments is not bound by
    position. *)
Lemma positional_lookup_None (names : list string) (args : list value)
    (i : nat) (k : string) :
  NoDup names → names !! i = Some k → (length args ≤ i)%nat →
  (list_to_map (zip names args) : gmap string value) !! k = None.
Proof.
  intros Hnd Hi Hlen. apply not_elem_of_list_to_map_1. intros Hin.
  apply list_elem_of_fmap in Hin as [[k' v] [Hk' Hin]]. simpl in Hk'. subst k'.
  apply list_elem_of_lookup in Hin as [j Hj].
  apply lookup_zip_with_Some in Hj as (k' & v' & [= <- <-] & Hn & Ha).
  pose proof (NoDup_lookup _ _ _ _ Hnd Hn Hi) as ->.
  apply lookup_lt_Some in Ha. lia.
Qed.

(** A parameter within the positional arguments is bound by position. *)
Lemma positional_lookup_is_Some (names : list string) (args : list value)
    (i : nat) (k : string) :
  names !! i = Some k → (i < length args)%nat →
  is_Some ((list_to_map (zip names args) : gmap string value) !! k).
Proof.
  intros Hi Hlen. destruct (lookup_lt_is_Some_2 args i Hlen) as [v Hv].
  apply not_eq_None_Some. intros Hnone.
  apply not_elem_of_list_to_map_2 in Hnone. apply Hnone.
  apply list_elem_of_fmap. exists (k, v). split; [done |].
  apply list_elem_of_lookup. exists i. apply lookup_zip_with_Some. eauto.
Qed.

(** A parameter without default has none in [param_defaults]. *)
Lemma param_defaults_lookup_None (sig : signature) (k : string) :
  NoDup (param_names sig) →
  (k, None) ∈ params sig →
  param_defaults sig !! k = None.
Proof.
  unfold param_defaults, param_names.
  induction (params sig) as [|[k0 o0] ps IH]; intros Hnd Hin.
  - by apply elem_of_nil in Hin.
  - rewrite fmap_cons in Hnd. apply NoDup_cons in Hnd as [Hfresh Hnd].
    apply elem_of_cons in Hin as [[= <- <-] | Hin].
    + simpl. apply not_elem_of_list_to_map_1. intros Hk. apply Hfresh.
      apply list_elem_of_fmap in Hk as [[k1 d1] [E1 Hk]]. simpl in E1. subst k1.
      apply list_elem_of_omap in Hk as ([k2 o2] & Hk & E2).
      destruct o2 as [d2|]; [|done]. simpl in E2. injection E2 as -> ->.
      apply list_elem_of_fmap. by exists (k, Some d1).
    + assert (k0 ≠ k).
      { intros ->. apply Hfresh. apply list_elem_of_fmap.
        by exists (k, None). }
      destruct o0 as [d0|]; simpl.
      * rewrite lookup_insert_ne by done. by apply IH.
      * by apply IH.
Qed.

(** A required parameter given neither by position nor by keyword makes
    the binding fail. *)
Lemma bind_args_missing (sig : signature) (args : list value)
    (kw : gmap string value) (i : nat) (k : string) :
  NoDup (param_names sig) →
  params sig !! i = Some (k, None) →
  (length args ≤ i)%nat →
  kw !! k = None →
  ∃ e, bind_args sig args kw = Raise e.
Proof.
  intros Hnd Hi Hlen Hkw.
  destruct (bind_args sig args kw) as [[named kwargs]|e] eqn:Hbind; [|eauto].
  exfalso.
  assert (Hname : param_names sig !! i = Some k).
  { unfold param_names. by rewrite list_lookup_fmap, Hi. }
  assert (Hin : k ∈ param_names sig) by (apply list_elem_of_lookup; eauto).
  pose proof (bind_args_named _ _ _ _ _ Hbind k Hin) as Hsome.
  destruct (bind_args_inv _ _ _ _ _ Hbind) as (_ & Hnamed & _ & _).
  rewrite Hnamed in Hsome at 1.
  assert ((list_to_map (zip (param_names sig) args)
             ∪ filter (λ kv : string * value, kv.1 ∈ param_names sig) kw
             ∪ param_defaults sig) !! k = None) as Hnone.
  { apply lookup_union_None. split; [apply lookup_union_None; split |].
    - by eapply positional_lookup_None.
    - apply map_lookup_filter_None. by left.
    - apply param_defaults_lookup_None; [done |].
      apply list_elem_of_lookup. eauto. }
  congruence.
Qed.

(** A parameter given both by position and by keyword makes the binding
    fail. *)
Lemma bind_args_twice (sig : signature) (args : list value)
    (kw : gmap string value) (i : nat) (k : string) :
  param_names sig !! i = Some k →
  (i < length args)%nat →
  is_Some (kw !! k) →
  ∃ e, bind_args sig args kw = Raise e.
Proof.
  intros Hi Hlen [v Hv].
  destruct (bind_args sig args kw) as [[named kwargs]|e] eqn:Hbind; [|eauto].
  exfalso.
  pose proof (bind_args_disjoint _ _ _ _ _ Hbind) as Hdisj.
  destruct (positional_lookup_is_Some _ args _ _ Hi Hlen) as [u Hu].
  assert (Hby : filter (λ kv : string * value, kv.1 ∈ param_names sig) kw !! k
                = Some v).
  { apply map_lookup_filter_Some. split; [done |].
    apply list_elem_of_lookup. eauto. }
  by apply (map_disjoint_spec _ _ ) with (i := k) (x := u) (y := v) in Hdisj.
Qed.

(** More positional arguments than parameters make the binding fail. *)
Lemma bind_args_too_many (sig : signature) (args : list value)
    (kw : gmap string value) :
  (length (param_names sig) < length args)%nat →
  ∃ e, bind_args sig args kw = Raise e.
Proof. intros Hlen. unfold bind_args. rewrite decide_True by done. eauto. Qed.

(** A call of a wrapper whose arguments do not bind raises the binding's
    error; the entry into the wrapper is all that happens. *)
Lemma call_unbound (c : HubClient) (f : wrapper) (args : list value)
    (kw : gmap string value) (w : world) :
  (∃ e, bind_args (signature_of f) args kw = Raise e) →
  ∃ msg, (call c f args kw w).1 = Raise (TypeError msg) ∧
         new_events (call c f args kw) w = [Enter f args kw].
Proof.
  intros [e Hbind].
  destruct (bind_args_raises_TypeError _ _ _ _ Hbind) as [msg ->].
  exists msg. destruct f; cbn [call signature_of] in *.
  - pose proof (download_run_unbound c args kw _ w Hbind) as Hrun.
    split; [by rewrite Hrun | eapply new_events_log1; exact Hrun].
  - pose proof (upload_run_unbound c args kw _ w Hbind) as Hrun.
    split; [by rewrite Hrun | eapply new_events_log1; exact Hrun].
Qed.

Lemma signature_of_NoDup (f : wrapper) : NoDup (param_names (signature_of f)).
Proof. destruct f; [apply download_names_NoDup | apply upload_names_NoDup]. Qed.

(** X1. A call of either wrapper that gives one of its three required
    parameters neither by position nor by keyword raises [TypeError]
    before anything is asked of the library: the entry into the wrapper is
    the only event of the run.  ([repo_type] and [etag_timeout] have no
    default in [download]'s [def] line, whatever its docstring says.) *)
Theorem missing_required_argument (c : HubClient) (f : wrapper)
    (args : list value) (kw : gmap string value) (w : world)
    (i : nat) (k : string) :
  params (signature_of f) !! i = Some (k, None) →
  (length args ≤ i)%nat →
  kw !! k = None →
  ∃ msg, (call c f args kw w).1 = Raise (TypeError msg) ∧
         new_events (call c f args kw) w = [Enter f args kw].
Proof.
  intros Hi Hlen Hkw. apply call_unbound.
  eapply bind_args_missing; eauto using signature_of_NoDup.
Qed.

Lemma missing_required_argument_witness :
  ∃ msg,
    (call client_ok Fdownload [VStr "bert-base-uncased"]
          {[ "revision" := VStr "main" ]} (World ∅ [])).1
      = Raise (TypeError msg) ∧
    new_events (call client_ok Fdownload [VStr "bert-base-uncased"]
                     {[ "revision" := VStr "main" ]}) (World ∅ [])
      = [Enter Fdownload [VStr "bert-base-uncased"]
               {[ "revision" := VStr "main" ]}].
Proof.
  apply (missing_required_argument client_ok Fdownload
           [VStr "bert-base-uncased"] {[ "revision" := VStr "main" ]}
           (World ∅ []) 1 "repo_type").
  - reflexivity.
  - simpl; lia.
  - reflexivity.
Defined.

(** X2. Either wrapper takes at most four positional arguments: a call
    with five or more raises [TypeError] and the library is not called.
    Further options can only be given by keyword. *)
Theorem too_many_positional_arguments (c : HubClient) (f : wrapper)
    (args : list value) (kw : gmap string value) (w : world) :
  (4 < length args)%nat →
  ∃ msg, (call c f args kw w).1 = Raise (TypeError msg) ∧
         new_events (call c f args kw) w = [Enter f args kw].
Proof.
  intros Hlen. apply call_unbound. apply bind_args_too_many.
  by destruct f.
Qed.

Lemma too_many_positional_arguments_witness :
  ∃ msg,
    (call client_ok Fupload
          [VStr "/tmp/model"; VStr "org/model"; VStr "model"; VStr "main";
           VStr "first commit"] ∅ (World ∅ [])).1
      = Raise (TypeError msg) ∧
    new_events (call client_ok Fupload
                  [VStr "/tmp/model"; VStr "org/model"; VStr "model";
                   VStr "main"; VStr "first commit"] ∅) (World ∅ [])
      = [Enter Fupload
           [VStr "/tmp/model"; VStr "org/model"; VStr "model"; VStr "main";
            VStr "first commit"] ∅].
Proof.
  apply (too_many_positional_arguments client_ok Fupload
           [VStr "/tmp/model"; VStr "org/model"; VStr "model"; VStr "main";
            VStr "first commit"] ∅ (World ∅ [])).
  simpl; lia.
Defined.

(** X3. A call of either wrapper that gives a parameter both by position
    and by keyword raises [TypeError] and the library is not called: a
    keyword cannot override a positional argument. *)
Theorem argument_given_twice (c : HubClient) (f : wrapper)
    (args : list value) (kw : gmap string value) (w : world)
    (i : nat) (k : string) :
  param_names (signature_of f) !! i = Some k →
  (i < length args)%nat →
  is_Some (kw !! k) →
  ∃ msg, (call c f args kw w).1 = Raise (TypeError msg) ∧
         new_events (call c f args kw) w = [Enter f args kw].
Proof.
  intros Hi Hlen Hkw. apply call_unbound. by eapply bind_args_twice.
Qed.

Lemma argument_given_twice_witness :
  ∃ msg,
    (call client_ok Fdownload [VStr "org/a"; VStr "model"; VInt 10]
          {[ "repo_id" := VStr "org/b" ]} (World ∅ [])).1
      = Raise (TypeError msg) ∧
    new_events (call client_ok Fdownload [VStr "org/a"; VStr "model"; VInt 10]
                     {[ "repo_id" := VStr "org/b" ]}) (World ∅ [])
      = [Enter Fdownload [VStr "org/a"; VStr "model"; VInt 10]
               {[ "repo_id" := VStr "org/b" ]}].
Proof.
  apply (argument_given_twice client_ok Fdownload
           [VStr "org/a"; VStr "model"; VInt 10]
           {[ "repo_id" := VStr "org/b" ]} (World ∅ []) 0 "repo_id").
  - reflexivity.
  - simpl; lia.
  - apply (bool_decide_unpack _). vm_compute. exact I.
Defined.

(** ** Calls that bind *)

(** A well-formed call of a [def] line with [**kwargs] binds. *)
Lemma bind_args_well_formed (sig : signature) (args : list value)
    (kw : gmap string value) :
  NoDup (param_names sig) →
  var_keyword sig = true →
  well_formed_call sig args kw →
  ∃ named,
    bind_args sig args kw
    = Return (named, filter (λ kv, kv.1 ∉ param_names sig) kw).
Proof.
  intros Hnd Hvar (Hlen & Hpos & Hrest).
  assert (Hnames : length (param_names sig) = length (params sig))
    by (unfold param_names; apply length_fmap).
  unfold bind_args. rewrite decide_False by lia.
  rewrite decide_True; cycle 1.
  { apply map_disjoint_spec. intros k x y Hx Hy.
    apply map_lookup_filter_Some in Hy as [Hy _].
    apply elem_of_list_to_map_2 in Hx.
    apply list_elem_of_lookup in Hx as [j Hj].
    apply lookup_zip_with_Some in Hj as (k' & x' & [= <- <-] & Hn & Ha).
    rewrite Forall_forall in Hpos.
    assert (kw !! k = None); [|congruence].
    apply Hpos. apply list_elem_of_lookup. exists j.
    rewrite lookup_take_lt; [done |]. by eapply lookup_lt_Some. }
  rewrite decide_True by (by right).
  rewrite decide_True; [eauto |].
  apply Forall_forall. intros k Hk.
  apply list_elem_of_lookup in Hk as [i Hi].
  destruct (decide (i < length args)%nat) as [Hlt|Hge].
  - destruct (positional_lookup_is_Some _ args _ _ Hi Hlt) as [v Hv].
    exists v. by apply lookup_union_Some_l, lookup_union_Some_l.
  - unfold param_names in Hi. rewrite list_lookup_fmap in Hi.
    destruct (params sig !! i) as [[k' d]|] eqn:Hp; [|done].
    simpl in Hi. injection Hi as ->.
    rewrite Forall_forall in Hrest.
    assert (Hin : (k, d) ∈ drop (length args) (params sig)).
    { apply list_elem_of_lookup. exists (i - length args)%nat.
      rewrite lookup_drop. rewrite <- Hp. f_equal. lia. }
    destruct (Hrest _ Hin) as [[dv Hd] | [v Hv]]; simpl in *.
    + subst d.
      destruct ((list_to_map (zip (params sig).*1 args)
                   ∪ filter (λ kv : string * value, kv.1 ∈ (params sig).*1) kw)
                  !! k) as [u|] eqn:Hu.
      * exists u. by apply lookup_union_Some_l.
      * exists dv. rewrite lookup_union_r by done.
        apply param_defaults_lookup; [done |].
        apply list_elem_of_lookup. eauto.
    + assert (Hby : filter (λ kv : string * value, kv.1 ∈ (params sig).*1) kw
                      !! k = Some v).
      { apply map_lookup_filter_Some. split; [done |].
        simpl. apply list_elem_of_fmap. exists (k, d). split; [done |].
        apply list_elem_of_lookup. eauto. }
      destruct ((list_to_map (zip (params sig).*1 args) : gmap string value)
                  !! k) as [u|] eqn:Hu.
      * exists u. by apply lookup_union_Some_l, lookup_union_Some_l.
      * exists v. apply lookup_union_Some_l. by rewrite lookup_union_r.
Qed.

(** A call that is not well formed does not bind. *)
Lemma bind_args_ill_formed (sig : signature) (args : list value)
    (kw : gmap string value) :
  NoDup (param_names sig) →
  ¬ well_formed_call sig args kw →
  ∃ e, bind_args sig args kw = Raise e.
Proof.
  intros Hnd Hill.
  assert (Hnames : length (param_names sig) = length (params sig))
    by (unfold param_names; apply length_fmap).
  destruct (decide (length args ≤ length (params sig))%nat) as [Hlen|Hlen];
    [| apply bind_args_too_many; lia].
  destruct (decide (Forall (λ k, kw !! k = None)
                      (take (length args) (param_names sig)))) as [Hpos|Hpos].
  - destruct (decide (Forall (λ p : string * option value,
                                is_Some p.2 ∨ is_Some (kw !! p.1))
                        (drop (length args) (params sig)))) as [Hrest|Hrest];
      [by destruct Hill |].
    apply not_Forall_Exists in Hrest; [| apply _].
    apply Exists_exists in Hrest as ([k d] & Hin & Hno).
    apply list_elem_of_lookup in Hin as [j Hj]. rewrite lookup_drop in Hj.
    simpl in Hno.
    destruct d as [d|]; [exfalso; apply Hno; left; eauto |].
    eapply (bind_args_missing sig args kw (length args + j) k);
      [done | done | lia |].
    destruct (kw !! k) eqn:E; [exfalso; apply Hno; right; eauto | done].
  - apply not_Forall_Exists in Hpos; [| apply _].
    apply Exists_exists in Hpos as (k & Hin & Hno).
    apply list_elem_of_lookup in Hin as [j Hj].
    apply lookup_take_Some in Hj as [Hj Hlt].
    eapply (bind_args_twice sig args kw j k); [done | done |].
    by apply not_eq_None_Some.
Qed.

Lemma signature_of_var_keyword (f : wrapper) :
  var_keyword (signature_of f) = true.
Proof. by destruct f. Qed.

(** X4. A call of either wrapper gets as far as the library exactly when
    it is well formed: at most four positional arguments, no parameter
    given twice, and the three required parameters given.  Then the first
    thing after the entry is a library call; otherwise the entry is all
    there is (X1 to X3). *)
Theorem call_reaches_library_iff (c : HubClient) (f : wrapper)
    (args : list value) (kw : gmap string value) (w : world) :
  well_formed_call (signature_of f) args kw ↔
  ∃ g k r rest,
    new_events (call c f args kw) w
    = Enter f args kw :: External g [] k r :: rest.
Proof.
  split.
  - intros Hwf.
    destruct (bind_args_well_formed _ args kw (signature_of_NoDup f)
                (signature_of_var_keyword f) Hwf) as [named Hbind].
    destruct f; cbn [call signature_of] in *.
    + destruct (download_cases c args kw w)
        as [(e & _ & _ & He) | (k & r & Hev & _)]; [congruence |].
      rewrite Hev. eauto.
    + destruct (upload_cases c args kw w)
        as [(e & _ & _ & He) | [(e & Hev & _) |
            [(api & k & e & Hev & _) | (api & k & v & Hev & _)]]];
        [congruence | rewrite Hev; eauto ..].
  - intros (g & k & r & rest & Hev).
    destruct (decide (well_formed_call (signature_of f) args kw))
      as [Hwf|Hill]; [done |].
    destruct (call_unbound c f args kw w
                (bind_args_ill_formed _ _ _ (signature_of_NoDup f) Hill))
      as (msg & _ & Hent).
    rewrite Hent in Hev. discriminate.
Qed.

(** The value bound to a parameter is what the call supplies for it. *)
Lemma bind_args_supplied (sig : signature) (args : list value)
    (kw named kwargs : gmap string value) (i : nat) (k : string)
    (d : option value) :
  bind_args sig args kw = Return (named, kwargs) →
  NoDup (param_names sig) →
  params sig !! i = Some (k, d) →
  named !! k = supplied args kw i k d.
Proof.
  intros Hbind Hnd Hi. unfold supplied.
  assert (Hname : param_names sig !! i = Some k).
  { unfold param_names. by rewrite list_lookup_fmap, Hi. }
  destruct (args !! i) as [v|] eqn:Ha.
  - by eapply bind_args_positional.
  - apply lookup_ge_None in Ha.
    destruct (kw !! k) as [v|] eqn:Hk.
    + eapply bind_args_keyword; [done | | done].
      apply list_elem_of_lookup. eauto.
    + destruct d as [d|].
      * by eapply bind_args_default.
      * destruct (bind_args_missing sig args kw i k Hnd Hi Ha Hk) as [e He].
        congruence.
Qed.

(** A call of wrapper [f]'s capability in a run of [f] stems from a
    binding of the arguments and carries [request]. *)
Lemma capability_call_inv (c : HubClient) (f : wrapper) (args : list value)
    (kw : gmap string value) (w : world)
    (a : list value) (k : gmap string value) (r : outcome value) :
  (a, k, r) ∈ calls (capability_of f) (new_events (call c f args kw) w) →
  ∃ named kwargs,
    bind_args (signature_of f) args kw = Return (named, kwargs) ∧
    k = request f named kwargs.
Proof.
  destruct (bind_args (signature_of f) args kw) as [[named kwargs]|e]
    eqn:Hbind.
  - intros Hin. exists named, kwargs. split; [done |].
    destruct f; cbn [call signature_of capability_of request] in *.
    + pose proof (download_run c args kw named kwargs w Hbind) as Hrun.
      cbn zeta in Hrun. apply new_events_log2 in Hrun.
      rewrite Hrun in Hin. cbn in Hin.
      apply list_elem_of_singleton in Hin. by injection Hin as _ -> _.
    + pose proof (upload_run c args kw named kwargs w Hbind) as Hrun.
      cbn zeta in Hrun. destruct (HfApi c _) as [api|e].
      * apply new_events_log3 in Hrun. rewrite Hrun in Hin. cbn in Hin.
        apply list_elem_of_singleton in Hin. by injection Hin as _ -> _.
      * apply new_events_log2 in Hrun. rewrite Hrun in Hin. cbn in Hin.
        by apply elem_of_nil in Hin.
  - intros Hin.
    destruct (call_unbound c f args kw w (ex_intro _ e Hbind))
      as (msg & _ & Hent).
    rewrite Hent in Hin. destruct f; cbn in Hin; by apply elem_of_nil in Hin.
Qed.

(** A parameter name is a key of [request], with the bound value. *)
Lemma request_lookup_param (f : wrapper) (named kwargs : gmap string value)
    (i : nat) (k : string) (d : option value) :
  params (signature_of f) !! i = Some (k, d) →
  request f named kwargs !! k = Some (named !!! k).
Proof.
  destruct f; cbn [signature_of request]; intros Hi.
  - pose proof (download_request_params (named !!! "repo_id")
                  (named !!! "repo_type") (named !!! "etag_timeout")
                  (named !!! "revision") kwargs) as (H1 & H2 & H3 & H4).
    destruct i as [|[|[|[|i]]]]; simpl in Hi; simplify_eq; done.
  - pose proof (upload_request_params (named !!! "folder_path")
                  (named !!! "repo_id") (named !!! "repo_type")
                  (named !!! "revision") kwargs) as (H1 & H2 & H3 & H4).
    destruct i as [|[|[|[|i]]]]; simpl in Hi; simplify_eq; done.
Qed.

Lemma request_lookup_other (f : wrapper) (named kwargs : gmap string value)
    (k : string) :
  k ∉ param_names (signature_of f) →
  request f named kwargs !! k = kwargs !! k.
Proof.
  destruct f; cbn [signature_of request]; intros Hk.
  - by apply download_request_other.
  - by apply upload_request_other.
Qed.

(** X5. In every call of the underlying capability a wrapper makes, each
    of the four forwarded parameters carries what the caller supplied for
    it: the positional argument at the parameter's position if there is
    one, else the keyword argument of that name, else the default of the
    [def] line ([None], for [revision] only). *)
Theorem request_is_as_supplied (c : HubClient) (f : wrapper)
    (args : list value) (kw : gmap string value) (w : world)
    (a : list value) (k : gmap string value) (r : outcome value)
    (i : nat) (name : string) (d : option value) :
  (a, k, r) ∈ calls (capability_of f) (new_events (call c f args kw) w) →
  params (signature_of f) !! i = Some (name, d) →
  k !! name = supplied args kw i name d.
Proof.
  intros Hin Hi.
  destruct (capability_call_inv c f args kw w a k r Hin)
    as (named & kwargs & Hbind & ->).
  rewrite (request_lookup_param f named kwargs i name d Hi).
  rewrite <- (bind_args_supplied _ _ _ _ _ i name d Hbind
                (signature_of_NoDup f) Hi).
  symmetry. apply (bind_args_named _ _ _ _ _ Hbind).
  apply list_elem_of_lookup. exists i.
  unfold param_names. by rewrite list_lookup_fmap, Hi.
Qed.

Lemma request_is_as_supplied_witness :
  download_request (VStr "org/model") (VStr "model") (VInt 10) VNone
                   {[ "local_dir" := VStr "/data" ]} !! "etag_timeout"
  = supplied [VStr "org/model"; VStr "model"]
             {[ "etag_timeout" := VInt 10; "local_dir" := VStr "/data" ]}
             2 "etag_timeout" None.
Proof.
  apply (request_is_as_supplied client_ok Fdownload
           [VStr "org/model"; VStr "model"]
           {[ "etag_timeout" := VInt 10; "local_dir" := VStr "/data" ]}
           (World ∅ []) []
           (download_request (VStr "org/model") (VStr "model") (VInt 10) VNone
                             {[ "local_dir" := VStr "/data" ]})
           (Return (VStr "/cache/models--bert-base-uncased"))
           2 "etag_timeout" None).
  - apply (bool_decide_unpack _). vm_compute. exact I.
  - reflexivity.
Defined.

(** X6. A keyword-only call that names all four parameters is forwarded
    verbatim: the dictionary the capability receives is the caller's
    keyword dictionary itself, nothing added, dropped or changed. *)
Theorem keyword_call_forwarded_verbatim (c : HubClient) (f : wrapper)
    (kw : gmap string value) (w : world)
    (a : list value) (k : gmap string value) (r : outcome value) :
  Forall (λ n, is_Some (kw !! n)) (param_names (signature_of f)) →
  (a, k, r) ∈ calls (capability_of f) (new_events (call c f [] kw) w) →
  k = kw.
Proof.
  intros Hall Hin.
  destruct (capability_call_inv c f [] kw w a k r Hin)
    as (named & kwargs & Hbind & ->).
  apply map_eq. intros n.
  destruct (decide (n ∈ param_names (signature_of f))) as [Hn|Hn].
  - pose proof Hn as Hn'. apply list_elem_of_lookup in Hn' as [i Hi].
    unfold param_names in Hi. rewrite list_lookup_fmap in Hi.
    destruct (params (signature_of f) !! i) as [[n' d]|] eqn:Hp; [|done].
    simpl in Hi. injection Hi as ->.
    rewrite (request_lookup_param f named kwargs i n d Hp).
    rewrite <- (bind_args_named _ _ _ _ _ Hbind n Hn).
    rewrite (bind_args_supplied _ _ _ _ _ i n d Hbind
               (signature_of_NoDup f) Hp).
    unfold supplied. rewrite lookup_nil.
    rewrite Forall_forall in Hall. destruct (Hall n Hn) as [v Hv].
    by rewrite Hv.
  - rewrite request_lookup_other by done.
    by apply (bind_args_kwargs_other _ _ _ _ _ Hbind).
Qed.

Lemma keyword_call_forwarded_verbatim_witness :
  <["local_dir" := VStr "/data"]> bert_kwargs
  = <["local_dir" := VStr "/data"]> bert_kwargs.
Proof.
  apply (keyword_call_forwarded_verbatim client_ok Fdownload
           (<["local_dir" := VStr "/data"]> bert_kwargs) (World ∅ []) []
           (<["local_dir" := VStr "/data"]> bert_kwargs)
           (Return (VStr "/cache/models--bert-base-uncased"))).
  - apply (bool_decide_unpack _). vm_compute. exact I.
  - apply (bool_decide_unpack _). vm_compute. exact I.
Defined.

(** ** The client object of [upload] *)

(** X7. [upload] builds its client object as [HfApi()], with no argument
    at all, at most once per call: whatever the caller passes, positional
    or keyword (a token, an endpoint), goes to [upload_folder] and never
    to the constructor.  [download] builds no client object. *)
Theorem HfApi_built_without_arguments (c : HubClient) (args : list value)
    (kw : gmap string value) (w : world) :
  (∀ a k r, (a, k, r) ∈ calls EHfApi (new_events (upload c args kw) w) →
            a = [] ∧ k = ∅) ∧
  (length (calls EHfApi (new_events (upload c args kw) w)) ≤ 1)%nat ∧
  calls EHfApi (new_events (download c args kw) w) = [].
Proof.
  split; [|split].
  - intros a k r.
    destruct (upload_cases c args kw w)
      as [(e & -> & _) | [(e & -> & _) |
          [(api & k0 & e & -> & _) | (api & k0 & v & -> & _)]]];
      cbn; intros Hin;
      try (by apply elem_of_nil in Hin);
      apply list_elem_of_singleton in Hin; by injection Hin as -> -> _.
  - destruct (upload_cases c args kw w)
      as [(e & -> & _) | [(e & -> & _) |
          [(api & k0 & e & -> & _) | (api & k0 & v & -> & _)]]];
      unfold calls; simpl; lia.
  - destruct (download_cases c args kw w)
      as [(e & -> & _) | (k & r & -> & _)]; reflexivity.
Qed.

(** X8. If building the client object fails, nothing is pushed: when
    [HfApi()] raises [e] in a call of [upload], the wrapper raises [e] and
    [upload_folder] is not called. *)
Theorem HfApi_failure_skips_upload (c : HubClient) (args : list value)
    (kw : gmap string value) (w : world)
    (a : list value) (k : gmap string value) (e : exception) :
  (a, k, Raise e) ∈ calls EHfApi (new_events (upload c args kw) w) →
  (upload c args kw w).1 = Raise e ∧
  calls Eupload_folder (new_events (upload c args kw) w) = [].
Proof.
  destruct (upload_cases c args kw w)
    as [(e0 & -> & _) | [(e0 & -> & Hres) |
        [(api & k0 & e0 & -> & _) | (api & k0 & v & -> & _)]]];
    cbn; intros Hin;
    try (by apply elem_of_nil in Hin);
    apply list_elem_of_singleton in Hin; try discriminate.
  injection Hin as -> -> ->. done.
Qed.

Lemma HfApi_failure_skips_upload_witness :
  (upload client_unconfigured [] model_kwargs (World ∅ [])).1
    = Raise (Exc "ValueError" "bad endpoint") ∧
  calls Eupload_folder
    (new_events (upload client_unconfigured [] model_kwargs) (World ∅ [])) = [].
Proof.
  apply (HfApi_failure_skips_upload client_unconfigured [] model_kwargs
           (World ∅ []) [] ∅ (Exc "ValueError" "bad endpoint")).
  apply (bool_decide_unpack _). vm_compute. exact I.
Defined.

(** ** Where a wrapper's exceptions come from *)

(** X9. A wrapper raises nothing of its own making: if a call of either
    wrapper raises [e], then either the arguments did not bind and [e] is
    the binding's [TypeError], raised before any library call, or [e] was
    raised by the library call the run ends with. *)
Theorem wrapper_raises_only_foreign (c : HubClient) (f : wrapper)
    (args : list value) (kw : gmap string value) (w : world)
    (e : exception) :
  (call c f args kw w).1 = Raise e →
  (bind_args (signature_of f) args kw = Raise e ∧
   new_events (call c f args kw) w = [Enter f args kw]) ∨
  (∃ g a k, last (new_events (call c f args kw) w)
            = Some (External g a k (Raise e))).
Proof.
  destruct f; cbn [call signature_of]; intros Hres.
  - destruct (download_cases c args kw w)
      as [(e0 & Hev & Hr & Hb) | (k & r & Hev & Hr)].
    + left. rewrite Hr in Hres. injection Hres as <-. done.
    + right. rewrite Hres in Hr. subst r. rewrite Hev. eauto.
  - destruct (upload_cases c args kw w)
      as [(e0 & Hev & Hr & Hb) | [(e0 & Hev & Hr) |
          [(api & k & e0 & Hev & Hr) | (api & k & v & Hev & Hr)]]];
      rewrite Hr in Hres; try discriminate; injection Hres as <-.
    + left. done.
    + right. rewrite Hev. eauto.
    + right. rewrite Hev. eauto.
Qed.

Lemma wrapper_raises_only_foreign_witness :
  (bind_args (signature_of Fdownload) [] bert_kwargs
     = Raise (Exc "ConnectionError" "unreachable") ∧
   new_events (call client_down Fdownload [] bert_kwargs) (World ∅ [])
     = [Enter Fdownload [] bert_kwargs]) ∨
  (∃ g a k,
     last (new_events (call client_down Fdownload [] bert_kwargs) (World ∅ []))
     = Some (External g a k (Raise (Exc "ConnectionError" "unreachable")))).
Proof.
  apply (wrapper_raises_only_foreign client_down Fdownload [] bert_kwargs
           (World ∅ []) (Exc "ConnectionError" "unreachable")).
  reflexivity.
Defined.

(** X10. One call of a wrapper is at most one transfer, also when it
    fails: [download] calls [snapshot_download] at most once and never
    [upload_folder]; [upload] calls [upload_folder] at most once and never
    [snapshot_download]; and a wrapper never calls the other wrapper. *)
Theorem at_most_one_transfer (c : HubClient) (args : list value)
    (kw : gmap string value) (w : world) :
  ((length (calls Esnapshot_download (new_events (download c args kw) w)) ≤ 1)%nat ∧
   calls Eupload_folder (new_events (download c args kw) w) = [] ∧
   entries Fupload (new_events (download c args kw) w) = [] ∧
   entries Fdownload (new_events (download c args kw) w) = [(args, kw)]) ∧
  ((length (calls Eupload_folder (new_events (upload c args kw) w)) ≤ 1)%nat ∧
   calls Esnapshot_download (new_events (upload c args kw) w) = [] ∧
   entries Fdownload (new_events (upload c args kw) w) = [] ∧
   entries Fupload (new_events (upload c args kw) w) = [(args, kw)]).
Proof.
  split.
  - destruct (download_cases c args kw w)
      as [(e & -> & _) | (k & r & -> & _)];
      unfold calls, entries; simpl; repeat split; lia.
  - destruct (upload_cases c args kw w)
      as [(e & -> & _) | [(e & -> & _) |
          [(api & k0 & e & -> & _) | (api & k0 & v & -> & _)]]];
      unfold calls, entries; simpl; repeat split; lia.
Qed.

(** ** The driver script, in every environment *)



